(** * HestonProcess: square-root stochastic-volatility process

    A shallow embedding of [ql/processes/hestonprocess.cpp] and the
    properties of its drift, log-price map and step evolution.

    Modelling conventions.
    - The translation unit is embedded twice.  In the first embedding [Real]
      and [Time] (C++ [double]) are the mathematical reals [R]: rounding,
      overflow and NaN are outside it, and it carries the statements that
      compare operations the code performs as it performs them (formulas,
      clamps, failures, dependencies, signs).  The second embedding, module
      [B64], has [double] as IEEE 754 binary64; it carries the statements
      that rest on what a square root squares to, on a product with zero or
      one, or on the value of [std::exp], which differ in the two.
    - In the first embedding [std::sqrt], [std::exp], [std::fabs] are
      [sqrt], [exp], [Rabs].  The library totalises [sqrt] on negative
      arguments and [/] at a zero divisor, where the C++ operations yield
      NaN or an infinity; the specification counts such inputs (a negative
      time increment, a correlation outside [-1, 1]) as violations of the
      caller's contract.  No counterexample below rests on the value the
      library gives there.
    - [Array] is the two-component array the process works on: component 0 is
      the asset price, component 1 the variance.
    - [QL_FAIL] throws; a throwing call is a [QL_FAIL msg] result.  The
      inversion of the non-central chi-squared distribution is an external
      primitive that may itself throw, so it returns a [Result] too.
    - Yield curves, the quote, the cumulative normal distribution, the
      quantile inversion and [QL_EPSILON] live outside this translation unit
      and are parameters. *)

From Stdlib Require Import Floats.
From Stdlib Require Import ZArith Bool Lia Reals Lra NArith String.

Local Open Scope R_scope.

(** ** Data model *)

Abbreviation Real := R (only parsing).
Abbreviation Time := R (only parsing).
Abbreviation Size := N (only parsing).

(** [Array tmp(2)]: [at0 x] is [x[0]] (price), [at1 x] is [x[1]] (variance). *)
Record Array : Type := mkArray { at0 : Real; at1 : Real }.

(** [Matrix tmp(2,2)]: [m_ij] is [tmp[i][j]]. *)
Record Matrix : Type := mkMatrix { m00 : Real; m01 : Real; m10 : Real; m11 : Real }.

(** [Handle<YieldTermStructure>]: only [forwardRate(t1, t2, Continuous)] is
    used by the process. *)
Record YieldTermStructure : Type := mkCurve { forwardRate : Time -> Time -> Real }.

(** [Handle<Quote>]. *)
Record Quote : Type := mkQuote { value : Real }.

(** Modelled from the spec: the enumeration [Discretization] is declared in
    [ql/processes/hestonprocess.hpp], which is not among the sources.  The
    specification gives it exactly five values: the default Euler-style one
    and the four the switch of [evolve] names.  A C++ enumeration object can
    also hold an integer that is none of its enumerators; [Unlisted n] is
    such a selector. *)
Inductive Discretization : Type :=
| Euler
| PartialTruncation
| FullTruncation
| Reflection
| ExactVariance
| Unlisted (n : Z).

Record HestonProcess : Type := mkHestonProcess {
  riskFreeRate_ : YieldTermStructure;
  dividendYield_ : YieldTermStructure;
  s0_ : Quote;
  v0_ : Real;
  kappa_ : Real;
  theta_ : Real;
  sigma_ : Real;
  rho_ : Real;
  discretization_ : Discretization
}.

(** Outcome of a call that may throw. *)
Inductive Result (A : Type) : Type :=
| Returns (a : A)
| QL_FAIL (msg : string).

Arguments Returns {A} a.
Arguments QL_FAIL {A} msg.

Definition bind {A B : Type} (r : Result A) (k : A -> Result B) : Result B :=
  match r with
  | Returns a => k a
  | QL_FAIL msg => QL_FAIL msg
  end.

Notation "x <- r ;; k" := (bind r (fun x => k))
  (at level 61, r at next level, right associativity).

(** ** The process *)

Section Process.

(** [CumulativeNormalDistribution()(x)]. *)
Variable CumulativeNormalDistribution : Real -> Real.

(** [InverseNonCentralChiSquareDistribution(df, ncp, maxEvaluations)(p)]. *)
Variable InverseNonCentralChiSquareDistribution :
  Real -> Real -> Size -> Real -> Result Real.

(** The machine epsilon macro. *)
Variable QL_EPSILON : Real.

Definition size (P : HestonProcess) : Size := 2%N.

Definition initialValues (P : HestonProcess) : Array :=
  mkArray (value (s0_ P)) (v0_ P).

Definition is_Reflection (d : Discretization) : bool :=
  match d with Reflection => true | _ => false end.

Definition is_PartialTruncation (d : Discretization) : bool :=
  match d with PartialTruncation => true | _ => false end.

Definition drift (P : HestonProcess) (t : Time) (x : Array) : Array :=
  let vol :=
    if Rlt_dec 0 (at1 x) then sqrt (at1 x)
    else if is_Reflection (discretization_ P) then - sqrt (- at1 x)
    else 0 in
  mkArray
    (forwardRate (riskFreeRate_ P) t t
     - forwardRate (dividendYield_ P) t t
     - 0.5 * vol * vol)
    (kappa_ P *
       (theta_ P - (if is_PartialTruncation (discretization_ P)
                    then at1 x else vol * vol))).

Definition diffusion (P : HestonProcess) (t : Time) (x : Array) : Matrix :=
  let vol :=
    if Rlt_dec 0 (at1 x) then sqrt (at1 x)
    else if is_Reflection (discretization_ P) then - sqrt (- at1 x)
    else 1e-8 in
  let sigma2 := sigma_ P * vol in
  let sqrhov := sqrt (1 - rho_ P * rho_ P) in
  mkMatrix vol 0 (rho_ P * sigma2) (sqrhov * sigma2).

Definition apply (P : HestonProcess) (x0 dx : Array) : Array :=
  mkArray (at0 x0 * exp (at0 dx)) (at1 x0 + at1 dx).

Definition evolve (P : HestonProcess) (t0 : Time) (x0 : Array)
                  (dt : Time) (dw : Array) : Result Array :=
  let sdt := sqrt dt in
  let sqrhov := sqrt (1 - rho_ P * rho_ P) in
  match discretization_ P with
  | PartialTruncation =>
      let vol := if Rlt_dec 0 (at1 x0) then sqrt (at1 x0) else 0 in
      let vol2 := sigma_ P * vol in
      let mu := forwardRate (riskFreeRate_ P) t0 (t0 + dt)
                - forwardRate (dividendYield_ P) t0 (t0 + dt)
                - 0.5 * vol * vol in
      let nu := kappa_ P * (theta_ P - at1 x0) in
      Returns (mkArray
        (at0 x0 * exp (mu * dt + vol * at0 dw * sdt))
        (at1 x0 + nu * dt + vol2 * sdt * (rho_ P * at0 dw + sqrhov * at1 dw)))
  | FullTruncation =>
      let vol := if Rlt_dec 0 (at1 x0) then sqrt (at1 x0) else 0 in
      let vol2 := sigma_ P * vol in
      let mu := forwardRate (riskFreeRate_ P) t0 (t0 + dt)
                - forwardRate (dividendYield_ P) t0 (t0 + dt)
                - 0.5 * vol * vol in
      let nu := kappa_ P * (theta_ P - vol * vol) in
      Returns (mkArray
        (at0 x0 * exp (mu * dt + vol * at0 dw * sdt))
        (at1 x0 + nu * dt + vol2 * sdt * (rho_ P * at0 dw + sqrhov * at1 dw)))
  | Reflection =>
      let vol := sqrt (Rabs (at1 x0)) in
      let vol2 := sigma_ P * vol in
      let mu := forwardRate (riskFreeRate_ P) t0 (t0 + dt)
                - forwardRate (dividendYield_ P) t0 (t0 + dt)
                - 0.5 * vol * vol in
      let nu := kappa_ P * (theta_ P - vol * vol) in
      Returns (mkArray
        (at0 x0 * exp (mu * dt + vol * at0 dw * sdt))
        (vol * vol
         + nu * dt + vol2 * sdt * (rho_ P * at0 dw + sqrhov * at1 dw)))
  | ExactVariance =>
      let vol := if Rlt_dec 0 (at1 x0) then sqrt (at1 x0) else 0 in
      let mu := forwardRate (riskFreeRate_ P) t0 (t0 + dt)
                - forwardRate (dividendYield_ P) t0 (t0 + dt)
                - 0.5 * vol * vol in
      let df := 4 * theta_ P * kappa_ P / (sigma_ P * sigma_ P) in
      let ncp := 4 * kappa_ P * exp (- kappa_ P * dt)
                 / (sigma_ P * sigma_ P * (1 - exp (- kappa_ P * dt)))
                 * at1 x0 in
      let p := CumulativeNormalDistribution (at1 dw) in
      let p := if Rlt_dec p 0 then 0
               else if Rge_dec p 1 then 1 - QL_EPSILON
               else p in
      q <- InverseNonCentralChiSquareDistribution df ncp 100%N p ;;
      let retVal1 := sigma_ P * sigma_ P * (1 - exp (- kappa_ P * dt))
                     / (4 * kappa_ P)
                     * q in
      let dy := (mu - rho_ P / sigma_ P * kappa_ P
                        * (theta_ P - vol * vol)) * dt
                + vol * sqrhov * at0 dw * sdt in
      Returns (mkArray
        (at0 x0 * exp (dy + rho_ P / sigma_ P * (retVal1 - at1 x0)))
        retVal1)
  | _ => QL_FAIL "unknown discretization schema"
  end.

End Process.

(** [P] with its discretization selector replaced by [d]; every other
    constructor argument is kept. *)
Definition with_discretization (P : HestonProcess) (d : Discretization)
  : HestonProcess :=
  mkHestonProcess (riskFreeRate_ P) (dividendYield_ P) (s0_ P) (v0_ P)
                  (kappa_ P) (theta_ P) (sigma_ P) (rho_ P) d.

(** ** Quantities named by the specification *)

(** Forward risk-free rate minus forward dividend yield over [t0, t0+dt]. *)
Definition fwdDrift (P : HestonProcess) (t0 dt : Time) : Real :=
  forwardRate (riskFreeRate_ P) t0 (t0 + dt)
  - forwardRate (dividendYield_ P) t0 (t0 + dt).

(** "vol = sqrt(variance) if variance > 0 else 0". *)
Definition truncated_vol (v : Real) : Real :=
  if Rlt_dec 0 v then sqrt v else 0.

(** The volatility of [drift] as the specification words it:
    "sqrt(variance) if variance > 0, else -sqrt|variance| if the mode is
    Reflection, else 0". *)
Definition drift_vol (d : Discretization) (v : Real) : Real :=
  if Rlt_dec 0 v then sqrt v
  else match d with
       | Reflection => - sqrt (Rabs v)
       | _ => 0
       end.

(** The drift pair as the specification words it. *)
Definition drift_spec (P : HestonProcess) (t : Time) (x : Array) : Array :=
  let vol := drift_vol (discretization_ P) (at1 x) in
  let X := match discretization_ P with
           | PartialTruncation => at1 x
           | _ => vol * vol
           end in
  mkArray
    (forwardRate (riskFreeRate_ P) t t - forwardRate (dividendYield_ P) t t
     - / 2 * (vol * vol))
    (kappa_ P * (theta_ P - X)).

(** Degrees of freedom, non-centrality and scale of the exact variance law. *)
Definition exact_df (P : HestonProcess) : Real :=
  4 * kappa_ P * theta_ P / (sigma_ P * sigma_ P).

Definition exact_ncp (P : HestonProcess) (dt : Time) (x0 : Array) : Real :=
  4 * kappa_ P * exp (- kappa_ P * dt)
  / (sigma_ P * sigma_ P * (1 - exp (- kappa_ P * dt))) * at1 x0.

Definition exact_scale (P : HestonProcess) (dt : Time) : Real :=
  sigma_ P * sigma_ P * (1 - exp (- kappa_ P * dt)) / (4 * kappa_ P).

(** "Phi(dw1) clamped into [0, 1): values >= 1 are mapped to 1 - eps,
    negative values to 0". *)
Definition clamped_probability (Phi : Real -> Real) (eps : Real) (dw : Array)
  : Real :=
  let p := Phi (at1 dw) in
  if Rle_dec 1 p then 1 - eps
  else if Rlt_dec p 0 then 0
  else p.

(** The value the local [dy] of the [ExactVariance] case holds (source lines
    156-159 and 174-175): the drift [mu] carries the [- 0.5 * vol * vol]
    term. *)
Definition exact_dy (P : HestonProcess) (t0 : Time) (x0 : Array)
                    (dt : Time) (dw : Array) : Real :=
  let sdt := sqrt dt in
  let sqrhov := sqrt (1 - rho_ P * rho_ P) in
  let vol := if Rlt_dec 0 (at1 x0) then sqrt (at1 x0) else 0 in
  let mu := forwardRate (riskFreeRate_ P) t0 (t0 + dt)
            - forwardRate (dividendYield_ P) t0 (t0 + dt)
            - 0.5 * vol * vol in
  (mu - rho_ P / sigma_ P * kappa_ P * (theta_ P - vol * vol)) * dt
  + vol * sqrhov * at0 dw * sdt.

(** The log-price increment as item 6 of the exact-variance recipe words it:
    no [- 0.5 * vol^2] term. *)
Definition dy_claimed (P : HestonProcess) (t0 : Time) (x0 : Array)
                      (dt : Time) (dw : Array) : Real :=
  let vol := truncated_vol (at1 x0) in
  (fwdDrift P t0 dt
   - rho_ P / sigma_ P * kappa_ P * (theta_ P - vol * vol)) * dt
  + vol * sqrt (1 - rho_ P * rho_ P) * at0 dw * sqrt dt.

(** The state the [ExactVariance] case returns once the inversion has
    returned [q]. *)
Definition exact_state (P : HestonProcess) (t0 : Time) (x0 : Array)
                       (dt : Time) (dw : Array) (q : Real) : Array :=
  mkArray
    (at0 x0 * exp (exact_dy P t0 x0 dt dw
                   + rho_ P / sigma_ P * (exact_scale P dt * q - at1 x0)))
    (exact_scale P dt * q).

(** The modes whose case of the switch is a closed formula. *)
Definition closed_form (d : Discretization) : bool :=
  match d with
  | PartialTruncation | FullTruncation | Reflection => true
  | _ => false
  end.

(** ** A concrete market and process

    The end-to-end scenario of the specification: kappa = 1, theta = 0.04,
    sigma = 0.2, rho = -0.5, v0 = 0.04, spot 100, flat zero curves. *)

Definition flat_curve (r : Real) : YieldTermStructure := mkCurve (fun _ _ => r).

Definition scenario (d : Discretization) : HestonProcess :=
  mkHestonProcess (flat_curve 0) (flat_curve 0) (mkQuote 100)
                  0.04 1 0.04 0.2 (-0.5) d.

(** Stand-ins for the numerical primitives: a cumulative distribution stuck
    at one half, an inversion that always returns [1], and the double
    precision machine epsilon [2^-52]. *)
Definition Phi_half : Real -> Real := fun _ => 0.5.

Definition Qinv_one : Real -> Real -> Size -> Real -> Result Real :=
  fun _ _ _ _ => Returns 1.

Definition eps_double : Real := / 4503599627370496.

Definition spot_state : Array := mkArray 100 0.04.

(** ** Vocabulary of the further properties *)

Definition Matrix_opp (m : Matrix) : Matrix :=
  mkMatrix (- m00 m) (- m01 m) (- m10 m) (- m11 m).

(** The result of a call, seen through [f] when the call returns. *)
Definition Result_map {A B : Type} (f : A -> B) (r : Result A) : Result B :=
  match r with
  | Returns a => Returns (f a)
  | QL_FAIL msg => QL_FAIL msg
  end.

(** A process on curves whose forward rates move with time. *)
Definition sloped_curve (a b : Real) : YieldTermStructure :=
  mkCurve (fun t1 t2 => a + b * (t1 + t2)).

Definition other_market (d : Discretization) : HestonProcess :=
  mkHestonProcess (sloped_curve 0.03 0.01) (sloped_curve 0.01 0.002)
                  (mkQuote 55) 0.09 1 0.04 0.2 (-0.5) d.

(** An inversion that returns the probability it is asked about. *)
Definition Qinv_echo : Real -> Real -> Size -> Real -> Result Real :=
  fun _ _ _ p => Returns p.

(** ** The process in binary64 arithmetic

    The same translation unit with [double] as the IEEE 754 binary64 numbers
    of the kernel ([PrimFloat]): [+], [-], [*], [/] and [std::sqrt] round to
    nearest even, [std::fabs] is [abs], [x > 0.0] is [0 <? x] and is false
    at a NaN; every operation rounds to binary64 on its own (no fused
    multiply-add, no extended precision).  [std::exp] belongs to the C
    library and is a parameter, like the cumulative normal distribution and
    the quantile inversion. *)

Module B64.

Local Open Scope float_scope.
Set Warnings "-inexact-float".

(** [Array tmp(2)]: [at0 x] is [x[0]] (price), [at1 x] is [x[1]] (variance). *)
Record Array : Type := mkArray { at0 : float; at1 : float }.

Record YieldTermStructure : Type :=
  mkCurve { forwardRate : float -> float -> float }.

Record Quote : Type := mkQuote { value : float }.

Record HestonProcess : Type := mkHestonProcess {
  riskFreeRate_ : YieldTermStructure;
  dividendYield_ : YieldTermStructure;
  s0_ : Quote;
  v0_ : float;
  kappa_ : float;
  theta_ : float;
  sigma_ : float;
  rho_ : float;
  discretization_ : Discretization
}.

Section Process.

(** [std::exp]. *)
Variable std_exp : float -> float.

(** [CumulativeNormalDistribution()(x)]. *)
Variable CumulativeNormalDistribution : float -> float.

(** [InverseNonCentralChiSquareDistribution(df, ncp, maxEvaluations)(p)]. *)
Variable InverseNonCentralChiSquareDistribution :
  float -> float -> N -> float -> Result float.

(** The machine epsilon macro. *)
Variable QL_EPSILON : float.

Definition apply (P : HestonProcess) (x0 dx : Array) : Array :=
  mkArray (at0 x0 * std_exp (at0 dx)) (at1 x0 + at1 dx).

Definition evolve (P : HestonProcess) (t0 : float) (x0 : Array)
                  (dt : float) (dw : Array) : Result Array :=
  let sdt := PrimFloat.sqrt dt in
  let sqrhov := PrimFloat.sqrt (1 - rho_ P * rho_ P) in
  match discretization_ P with
  | PartialTruncation =>
      let vol := if 0 <? at1 x0 then PrimFloat.sqrt (at1 x0) else 0 in
      let vol2 := sigma_ P * vol in
      let mu := forwardRate (riskFreeRate_ P) t0 (t0 + dt)
                - forwardRate (dividendYield_ P) t0 (t0 + dt)
                - 0.5 * vol * vol in
      let nu := kappa_ P * (theta_ P - at1 x0) in
      Returns (mkArray
        (at0 x0 * std_exp (mu * dt + vol * at0 dw * sdt))
        (at1 x0 + nu * dt + vol2 * sdt * (rho_ P * at0 dw + sqrhov * at1 dw)))
  | FullTruncation =>
      let vol := if 0 <? at1 x0 then PrimFloat.sqrt (at1 x0) else 0 in
      let vol2 := sigma_ P * vol in
      let mu := forwardRate (riskFreeRate_ P) t0 (t0 + dt)
                - forwardRate (dividendYield_ P) t0 (t0 + dt)
                - 0.5 * vol * vol in
      let nu := kappa_ P * (theta_ P - vol * vol) in
      Returns (mkArray
        (at0 x0 * std_exp (mu * dt + vol * at0 dw * sdt))
        (at1 x0 + nu * dt + vol2 * sdt * (rho_ P * at0 dw + sqrhov * at1 dw)))
  | Reflection =>
      let vol := PrimFloat.sqrt (PrimFloat.abs (at1 x0)) in
      let vol2 := sigma_ P * vol in
      let mu := forwardRate (riskFreeRate_ P) t0 (t0 + dt)
                - forwardRate (dividendYield_ P) t0 (t0 + dt)
                - 0.5 * vol * vol in
      let nu := kappa_ P * (theta_ P - vol * vol) in
      Returns (mkArray
        (at0 x0 * std_exp (mu * dt + vol * at0 dw * sdt))
        (vol * vol
         + nu * dt + vol2 * sdt * (rho_ P * at0 dw + sqrhov * at1 dw)))
  | ExactVariance =>
      let vol := if 0 <? at1 x0 then PrimFloat.sqrt (at1 x0) else 0 in
      let mu := forwardRate (riskFreeRate_ P) t0 (t0 + dt)
                - forwardRate (dividendYield_ P) t0 (t0 + dt)
                - 0.5 * vol * vol in
      let df := 4 * theta_ P * kappa_ P / (sigma_ P * sigma_ P) in
      let ncp := 4 * kappa_ P * std_exp (- kappa_ P * dt)
                 / (sigma_ P * sigma_ P * (1 - std_exp (- kappa_ P * dt)))
                 * at1 x0 in
      let p := CumulativeNormalDistribution (at1 dw) in
      let p := if p <? 0 then 0
               else if 1 <=? p then 1 - QL_EPSILON
               else p in
      q <- InverseNonCentralChiSquareDistribution df ncp 100%N p ;;
      let retVal1 := sigma_ P * sigma_ P * (1 - std_exp (- kappa_ P * dt))
                     / (4 * kappa_ P)
                     * q in
      let dy := (mu - rho_ P / sigma_ P * kappa_ P
                        * (theta_ P - vol * vol)) * dt
                + vol * sqrhov * at0 dw * sdt in
      Returns (mkArray
        (at0 x0 * std_exp (dy + rho_ P / sigma_ P * (retVal1 - at1 x0)))
        retVal1)
  | _ => QL_FAIL "unknown discretization schema"
  end.

End Process.

(** [P] with its discretization selector replaced by [d]. *)
Definition with_discretization (P : HestonProcess) (d : Discretization)
  : HestonProcess :=
  mkHestonProcess (riskFreeRate_ P) (dividendYield_ P) (s0_ P) (v0_ P)
                  (kappa_ P) (theta_ P) (sigma_ P) (rho_ P) d.

(** The volatility of the truncation schemes and of Reflection. *)
Definition truncated_vol (v : float) : float :=
  if 0 <? v then PrimFloat.sqrt v else 0.

Definition reflected_vol (v : float) : float :=
  PrimFloat.sqrt (PrimFloat.abs v).

(** Forward risk-free rate minus forward dividend yield over [t0, t0+dt]. *)
Definition fwdDrift (P : HestonProcess) (t0 dt : float) : float :=
  forwardRate (riskFreeRate_ P) t0 (t0 + dt)
  - forwardRate (dividendYield_ P) t0 (t0 + dt).

(** The shock of the variance, rho * dw[0] + sqrhov * dw[1]. *)
Definition variance_shock (P : HestonProcess) (dw : Array) : float :=
  rho_ P * at0 dw + PrimFloat.sqrt (1 - rho_ P * rho_ P) * at1 dw.

(** No term of a closed-form step with volatility [vol] and variance drift
    [nu] has overflowed or is a NaN: the drift mu, the price shock
    vol * dw[0], nu, sigma * vol and the variance shock are finite. *)
Definition finite_terms (P : HestonProcess) (t0 dt : float) (dw : Array)
                        (vol nu : float) : bool :=
  is_finite (fwdDrift P t0 dt - 0.5 * vol * vol)
  && is_finite (vol * at0 dw)
  && is_finite nu
  && is_finite (sigma_ P * vol)
  && is_finite (variance_shock P dw).

(** The end-to-end scenario of the specification in doubles. *)
Definition flat_curve (r : float) : YieldTermStructure :=
  mkCurve (fun _ _ => r).

Definition scenario (d : Discretization) : HestonProcess :=
  mkHestonProcess (flat_curve 0) (flat_curve 0) (mkQuote 100)
                  0.04 1 0.04 0.2 (-0.5) d.

Definition spot_state : Array := mkArray 100 0.04.

(** Finite parameters whose variance drift kappa * (theta - v) overflows. *)
Definition overflowing (d : Discretization) : HestonProcess :=
  mkHestonProcess (flat_curve 0) (flat_curve 0) (mkQuote 100)
                  0.04 1e308 (-1e308) 0.2 (-0.5) d.

(** A stand-in for [std::exp] that has its special values: NaN at a NaN,
    1 at either zero, 0 below -746 (e^x is then under half the least
    subnormal), +infinity above 710; in between the coarse approximation
    (1 + x/1024)^1024 by ten squarings.  The counterexamples below use it at
    its special values only. *)
Definition exp_stand_in (x : float) : float :=
  if is_nan x then nan
  else if x <? -746 then 0
  else if 710 <? x then infinity
  else if is_zero x then 1
  else
    let y := 1 + x / 1024 in
    let y := y * y in let y := y * y in let y := y * y in
    let y := y * y in let y := y * y in let y := y * y in
    let y := y * y in let y := y * y in let y := y * y in
    y * y.

Definition Phi_half : float -> float := fun _ => 0.5.

Definition Qinv_one : float -> float -> N -> float -> Result float :=
  fun _ _ _ _ => Returns 1.

(** The double precision machine epsilon. *)
Definition eps_double : float := 0x1p-52.

(** Predicates on the specification of a float, used in the proofs: a
    shift record with a non-negative mantissa, a number that is not a NaN and
    carries the sign [sx], and the shapes +0, positive finite, +infinity. *)
Definition nonneg_rec (mrs : shr_record) : Prop := (0 <= shr_m mrs)%Z.

Definition signed_as (sx : bool) (f : spec_float) : Prop :=
  match f with
  | S754_nan => False
  | S754_zero s | S754_infinity s | S754_finite s _ _ => s = sx
  end.

Definition plus_shape (f : spec_float) : Prop :=
  match f with
  | S754_zero false | S754_finite false _ _ | S754_infinity false => True
  | _ => False
  end.

End B64.

(** ** Auxiliary facts *)

Lemma truncated_vol_unfold (v : Real) :
  (if Rlt_dec 0 v then sqrt v else 0) = truncated_vol v.
Proof. reflexivity. Qed.

Lemma truncated_vol_sqr (v : Real) :
  0 <= v -> truncated_vol v * truncated_vol v = v.
Proof.
  intros Hv. unfold truncated_vol.
  destruct (Rlt_dec 0 v) as [Hpos | Hnpos].
  - apply sqrt_sqrt. lra.
  - lra.
Qed.

Lemma clamp_agrees (eps p : Real) :
  (if Rlt_dec p 0 then 0 else if Rge_dec p 1 then 1 - eps else p)
  = (if Rle_dec 1 p then 1 - eps else if Rlt_dec p 0 then 0 else p).
Proof.
  destruct (Rlt_dec p 0), (Rge_dec p 1), (Rle_dec 1 p); try reflexivity; lra.
Qed.

Lemma exact_df_agrees (P : HestonProcess) :
  4 * theta_ P * kappa_ P / (sigma_ P * sigma_ P) = exact_df P.
Proof. unfold exact_df, Rdiv. ring. Qed.


Section EvolveFacts.

Variable Phi : Real -> Real.
Variable Qinv : Real -> Real -> Size -> Real -> Result Real.
Variable eps : Real.

(** The [ExactVariance] case, in the vocabulary of the specification. *)
Lemma evolve_ExactVariance (P : HestonProcess) (t0 : Time) (x0 : Array)
                           (dt : Time) (dw : Array) :
  discretization_ P = ExactVariance ->
  evolve Phi Qinv eps P t0 x0 dt dw
  = (q <- Qinv (exact_df P) (exact_ncp P dt x0) 100%N
             (clamped_probability Phi eps dw) ;;
     Returns (exact_state P t0 x0 dt dw q)).
Proof.
  intros Hmode. unfold evolve. rewrite Hmode. cbv zeta.
  rewrite clamp_agrees, exact_df_agrees. reflexivity.
Qed.

Lemma evolve_PartialTruncation (P : HestonProcess) (t0 : Time) (x0 : Array)
                               (dt : Time) (dw : Array) :
  discretization_ P = PartialTruncation ->
  evolve Phi Qinv eps P t0 x0 dt dw
  = Returns (mkArray
      (at0 x0 * exp ((fwdDrift P t0 dt
                      - 0.5 * truncated_vol (at1 x0) * truncated_vol (at1 x0))
                     * dt
                     + truncated_vol (at1 x0) * at0 dw * sqrt dt))
      (at1 x0 + kappa_ P * (theta_ P - at1 x0) * dt
       + sigma_ P * truncated_vol (at1 x0) * sqrt dt
         * (rho_ P * at0 dw + sqrt (1 - rho_ P * rho_ P) * at1 dw))).
Proof. intros Hmode. unfold evolve. rewrite Hmode. reflexivity. Qed.

Lemma evolve_FullTruncation (P : HestonProcess) (t0 : Time) (x0 : Array)
                            (dt : Time) (dw : Array) :
  discretization_ P = FullTruncation ->
  evolve Phi Qinv eps P t0 x0 dt dw
  = Returns (mkArray
      (at0 x0 * exp ((fwdDrift P t0 dt
                      - 0.5 * truncated_vol (at1 x0) * truncated_vol (at1 x0))
                     * dt
                     + truncated_vol (at1 x0) * at0 dw * sqrt dt))
      (at1 x0
       + kappa_ P
         * (theta_ P - truncated_vol (at1 x0) * truncated_vol (at1 x0)) * dt
       + sigma_ P * truncated_vol (at1 x0) * sqrt dt
         * (rho_ P * at0 dw + sqrt (1 - rho_ P * rho_ P) * at1 dw))).
Proof. intros Hmode. unfold evolve. rewrite Hmode. reflexivity. Qed.

Lemma evolve_Reflection (P : HestonProcess) (t0 : Time) (x0 : Array)
                        (dt : Time) (dw : Array) :
  discretization_ P = Reflection ->
  evolve Phi Qinv eps P t0 x0 dt dw
  = Returns (mkArray
      (at0 x0 * exp ((fwdDrift P t0 dt
                      - 0.5 * sqrt (Rabs (at1 x0)) * sqrt (Rabs (at1 x0)))
                     * dt
                     + sqrt (Rabs (at1 x0)) * at0 dw * sqrt dt))
      (sqrt (Rabs (at1 x0)) * sqrt (Rabs (at1 x0))
       + kappa_ P
         * (theta_ P - sqrt (Rabs (at1 x0)) * sqrt (Rabs (at1 x0))) * dt
       + sigma_ P * sqrt (Rabs (at1 x0)) * sqrt dt
         * (rho_ P * at0 dw + sqrt (1 - rho_ P * rho_ P) * at1 dw))).
Proof. intros Hmode. unfold evolve. rewrite Hmode. reflexivity. Qed.

Lemma evolve_unhandled (P : HestonProcess) (t0 : Time) (x0 : Array)
                       (dt : Time) (dw : Array) :
  closed_form (discretization_ P) = false ->
  discretization_ P <> ExactVariance ->
  evolve Phi Qinv eps P t0 x0 dt dw = QL_FAIL "unknown discretization schema".
Proof.
  intros Hcf Hne. unfold evolve.
  destruct (discretization_ P); try discriminate; try reflexivity.
  contradiction.
Qed.

End EvolveFacts.

(** ** Properties of the translation unit *)

Section Claims.

Variable Phi : Real -> Real.
Variable Qinv : Real -> Real -> Size -> Real -> Result Real.
Variable eps : Real.

Local Abbreviation evolve' := (evolve Phi Qinv eps).

(** C2 (amended).  Under ExactVariance the log-price increment computed by
    [evolve] is
    dy = (fwdDrift - vol^2/2 - (rho/sigma) kappa (theta - vol^2)) dt
         + vol sqrhov dw0 sdt,
    with vol the truncated square root of the variance, and whenever the
    inversion returns, the next price is
    x0.price * exp (dy + (rho/sigma) (nextVariance - x0.variance)). *)
Theorem exact_variance_price_update (P : HestonProcess) (t0 : Time)
                                    (x0 : Array) (dt : Time) (dw : Array) :
  discretization_ P = ExactVariance ->
  exact_dy P t0 x0 dt dw
  = (fwdDrift P t0 dt
     - / 2 * (truncated_vol (at1 x0) * truncated_vol (at1 x0))
     - rho_ P / sigma_ P * kappa_ P
       * (theta_ P - truncated_vol (at1 x0) * truncated_vol (at1 x0))) * dt
    + truncated_vol (at1 x0) * sqrt (1 - rho_ P * rho_ P) * at0 dw * sqrt dt
  /\ (forall q,
        Qinv (exact_df P) (exact_ncp P dt x0) 100%N
             (clamped_probability Phi eps dw) = Returns q ->
        exists x1,
          evolve' P t0 x0 dt dw = Returns x1)
  /\ (forall x1,
        evolve' P t0 x0 dt dw = Returns x1 ->
        at0 x1 = at0 x0 * exp (exact_dy P t0 x0 dt dw
                               + rho_ P / sigma_ P * (at1 x1 - at1 x0))).
Proof.
  intros Hmode. rewrite (evolve_ExactVariance _ _ _ _ _ _ _ _ Hmode).
  split; [| split].
  - unfold exact_dy, fwdDrift. cbv zeta. rewrite !truncated_vol_unfold.
    lra.
  - intros q Hq. rewrite Hq. eexists. reflexivity.
  - intros x1 Hx1.
    destruct (Qinv _ _ _ _) as [q | msg]; cbn in Hx1; [| discriminate].
    injection Hx1 as <-. reflexivity.
Qed.

(** C4 (amended).  For every selector outside the five defined values,
    [evolve] fails with the error "unknown discretization schema" and
    produces no next state; it does not fall back to a default scheme. *)
Theorem evolve_unlisted_fails (P : HestonProcess) (t0 : Time) (x0 : Array)
                              (dt : Time) (dw : Array) (n : Z) :
  discretization_ P = Unlisted n ->
  evolve' P t0 x0 dt dw = QL_FAIL "unknown discretization schema"
  /\ forall x1, evolve' P t0 x0 dt dw <> Returns x1.
Proof.
  intros Hmode.
  assert (Hfail : evolve' P t0 x0 dt dw
                  = QL_FAIL "unknown discretization schema").
  { apply evolve_unhandled; rewrite Hmode; easy. }
  split; [exact Hfail |].
  intros x1. rewrite Hfail. discriminate.
Qed.

(** The default Euler selector has no case in the switch either. *)
Lemma evolve_Euler_fails (P : HestonProcess) (t0 : Time) (x0 : Array)
                         (dt : Time) (dw : Array) :
  discretization_ P = Euler ->
  evolve' P t0 x0 dt dw = QL_FAIL "unknown discretization schema".
Proof. intros Hmode. apply evolve_unhandled; rewrite Hmode; easy. Qed.

(** C6.  For every time and state, [drift] returns the pair
    (forwardRiskFreeRate(t,t) - forwardDividendYield(t,t) - vol^2/2,
     kappa (theta - X)),
    where vol = sqrt(variance) if variance > 0, else -sqrt|variance| under
    Reflection, else 0, and X is the variance under PartialTruncation and
    vol^2 otherwise. *)
Theorem drift_agrees_with_spec (P : HestonProcess) (t : Time) (x : Array) :
  drift P t x = drift_spec P t x.
Proof.
  unfold drift, drift_spec, drift_vol. cbv zeta.
  destruct (Rlt_dec 0 (at1 x)) as [Hpos | Hnpos].
  - destruct (discretization_ P); cbn [is_Reflection is_PartialTruncation];
      f_equal; lra.
  - assert (Habs : Rabs (at1 x) = - at1 x) by (apply Rabs_left1; lra).
    destruct (discretization_ P); cbn [is_Reflection is_PartialTruncation];
      rewrite ?Habs; f_equal; lra.
Qed.

(** C7.  Under ExactVariance the probability handed to the quantile
    inversion is Phi(dw1) clamped into [0, 1): a value >= 1 is replaced by
    1 - eps, a negative value by 0, any other value is kept.  With
    0 < eps <= 1 it lies in [0, 1), so the inversion is never asked about
    a probability outside that interval: its values there do not matter
    to [evolve]. *)
Theorem exact_variance_probability_in_range
        (P : HestonProcess) (t0 : Time) (x0 : Array) (dt : Time) (dw : Array) :
  0 < eps <= 1 ->
  discretization_ P = ExactVariance ->
  let p := clamped_probability Phi eps dw in
  0 <= p < 1
  /\ (1 <= Phi (at1 dw) -> p = 1 - eps)
  /\ (Phi (at1 dw) < 0 -> p = 0)
  /\ (0 <= Phi (at1 dw) < 1 -> p = Phi (at1 dw))
  /\ evolve' P t0 x0 dt dw
     = (q <- Qinv (exact_df P) (exact_ncp P dt x0) 100%N p ;;
        Returns (exact_state P t0 x0 dt dw q))
  /\ (forall Qinv' : Real -> Real -> Size -> Real -> Result Real,
        (forall df ncp n p', 0 <= p' < 1 ->
                             Qinv' df ncp n p' = Qinv df ncp n p') ->
        evolve Phi Qinv' eps P t0 x0 dt dw = evolve' P t0 x0 dt dw).
Proof.
  intros Heps Hmode p.
  assert (Hrange : 0 <= p < 1).
  { subst p. unfold clamped_probability. cbv zeta.
    destruct (Rle_dec 1 (Phi (at1 dw))); [lra |].
    destruct (Rlt_dec (Phi (at1 dw)) 0); lra. }
  split; [exact Hrange |].
  repeat split.
  - intros Hge. subst p. unfold clamped_probability. cbv zeta.
    destruct (Rle_dec 1 (Phi (at1 dw))); [reflexivity | contradiction].
  - intros Hneg. subst p. unfold clamped_probability. cbv zeta.
    destruct (Rle_dec 1 (Phi (at1 dw))); [lra |].
    destruct (Rlt_dec (Phi (at1 dw)) 0); [reflexivity | contradiction].
  - intros Hin. subst p. unfold clamped_probability. cbv zeta.
    destruct (Rle_dec 1 (Phi (at1 dw))); [lra |].
    destruct (Rlt_dec (Phi (at1 dw)) 0); [lra | reflexivity].
  - apply evolve_ExactVariance, Hmode.
  - intros Qinv' Hagree.
    rewrite !(evolve_ExactVariance _ _ _ _ _ _ _ _ Hmode).
    fold p. rewrite (Hagree _ _ _ _ Hrange). reflexivity.
Qed.


End Claims.

(** ** The properties at the concrete scenario *)

Lemma exact_variance_price_update_witness :
  discretization_ (scenario ExactVariance) = ExactVariance
  /\ exists x1,
       evolve Phi_half Qinv_one eps_double (scenario ExactVariance)
              0 spot_state 1 (mkArray 0 0)
       = Returns x1
       /\ at0 x1
          = at0 spot_state
            * exp (exact_dy (scenario ExactVariance) 0 spot_state 1 (mkArray 0 0)
                   + rho_ (scenario ExactVariance) / sigma_ (scenario ExactVariance)
                     * (at1 x1 - at1 spot_state)).
Proof.
  split; [reflexivity |].
  destruct (exact_variance_price_update Phi_half Qinv_one eps_double
              (scenario ExactVariance) 0 spot_state 1 (mkArray 0 0) eq_refl)
    as (_ & Hreturns & Hprice).
  destruct (Hreturns 1 eq_refl) as [x1 Hx1].
  exists x1. split; [exact Hx1 | exact (Hprice x1 Hx1)].
Defined.

Lemma scenario_exact_dy :
  exact_dy (scenario ExactVariance) 0 spot_state 1 (mkArray 0 0) = - 0.02.
Proof.
  unfold exact_dy. cbv zeta. rewrite truncated_vol_unfold.
  pose proof (truncated_vol_sqr (at1 spot_state)) as Hsq.
  cbn [scenario spot_state at0 at1 flat_curve forwardRate riskFreeRate_
       dividendYield_ kappa_ theta_ sigma_ rho_] in *.
  assert (H04 : 0 <= 0.04) by lra. specialize (Hsq H04).
  set (vol := truncated_vol 0.04) in *.
  set (sqrhov := sqrt _). set (sdt := sqrt 1).
  nra.
Qed.

Lemma scenario_dy_claimed :
  dy_claimed (scenario ExactVariance) 0 spot_state 1 (mkArray 0 0) = 0.
Proof.
  unfold dy_claimed, fwdDrift. cbv zeta.
  pose proof (truncated_vol_sqr (at1 spot_state)) as Hsq.
  cbn [scenario spot_state at0 at1 flat_curve forwardRate riskFreeRate_
       dividendYield_ kappa_ theta_ sigma_ rho_] in *.
  assert (H04 : 0 <= 0.04) by lra. specialize (Hsq H04).
  set (vol := truncated_vol 0.04) in *.
  set (sqrhov := sqrt _). set (sdt := sqrt 1).
  nra.
Qed.

(** With the formula of item 6, which has no [- vol^2/2] term, neither the
    increment nor the next price is the one [evolve] computes. *)
Lemma exact_variance_dy_claim_fails :
  exact_dy (scenario ExactVariance) 0 spot_state 1 (mkArray 0 0)
  <> dy_claimed (scenario ExactVariance) 0 spot_state 1 (mkArray 0 0)
  /\ exists x1,
       evolve Phi_half Qinv_one eps_double (scenario ExactVariance)
              0 spot_state 1 (mkArray 0 0)
       = Returns x1
       /\ at0 x1
          <> at0 spot_state
             * exp (dy_claimed (scenario ExactVariance) 0 spot_state 1
                               (mkArray 0 0)
                    + rho_ (scenario ExactVariance)
                      / sigma_ (scenario ExactVariance)
                      * (at1 x1 - at1 spot_state)).
Proof.
  split.
  - rewrite scenario_exact_dy, scenario_dy_claimed. lra.
  - rewrite evolve_ExactVariance by reflexivity.
    cbn [Qinv_one bind]. eexists. split; [reflexivity |].
    cbn [at0 at1 exact_state]. intros Heq.
    apply Rmult_eq_reg_l in Heq; [| cbn; lra].
    apply exp_inv in Heq.
    rewrite scenario_exact_dy, scenario_dy_claimed in Heq. lra.
Qed.

Lemma evolve_unlisted_fails_witness :
  discretization_ (scenario (Unlisted 5)) = Unlisted 5
  /\ evolve Phi_half Qinv_one eps_double (scenario (Unlisted 5))
            0 spot_state (/ 252) (mkArray 0 0)
     = QL_FAIL "unknown discretization schema"
  /\ forall x1,
       evolve Phi_half Qinv_one eps_double (scenario (Unlisted 5))
              0 spot_state (/ 252) (mkArray 0 0)
       <> Returns x1.
Proof.
  split; [reflexivity |].
  exact (evolve_unlisted_fails Phi_half Qinv_one eps_double
           (scenario (Unlisted 5)) 0 spot_state (/ 252) (mkArray 0 0) 5
           eq_refl).
Defined.

(** The failure of an unlisted selector does not carry the message
    "unsupported discretization scheme". *)
Lemma evolve_unlisted_message :
  evolve Phi_half Qinv_one eps_double (scenario (Unlisted 5))
         0 spot_state (/ 252) (mkArray 0 0)
  = QL_FAIL "unknown discretization schema"
  /\ evolve Phi_half Qinv_one eps_double (scenario (Unlisted 5))
            0 spot_state (/ 252) (mkArray 0 0)
     <> QL_FAIL "unsupported discretization scheme".
Proof.
  split; [reflexivity |]. cbv [evolve scenario discretization_]. discriminate.
Qed.

Lemma exact_variance_probability_in_range_witness :
  0 < eps_double <= 1
  /\ discretization_ (scenario ExactVariance) = ExactVariance
  /\ 0 <= clamped_probability Phi_half eps_double (mkArray 0 0) < 1.
Proof.
  assert (Heps : 0 < eps_double <= 1) by (unfold eps_double; lra).
  split; [exact Heps |]. split; [reflexivity |].
  exact (proj1 (exact_variance_probability_in_range
                  Phi_half Qinv_one eps_double (scenario ExactVariance)
                  0 spot_state (/ 252) (mkArray 0 0) Heps eq_refl)).
Defined.


(** ** Further properties: the diffusion matrix *)

(** X4.  Outside Reflection the volatility entry of the diffusion matrix is
    strictly positive for every state: at a variance that is not positive
    it is the floor 1e-8, so the matrix is
    1e-8 * ((1, 0), (rho sigma, sqrhov sigma)) and not the zero matrix. *)
Theorem diffusion_vol_positive (P : HestonProcess) (t : Time) (x : Array) :
  is_Reflection (discretization_ P) = false ->
  0 < m00 (diffusion P t x)
  /\ (at1 x <= 0 ->
      diffusion P t x
      = mkMatrix 1e-8 0 (rho_ P * (sigma_ P * 1e-8))
                 (sqrt (1 - rho_ P * rho_ P) * (sigma_ P * 1e-8))).
Proof.
  intros Hmode. unfold diffusion. cbv zeta. rewrite Hmode. cbn [m00].
  destruct (Rlt_dec 0 (at1 x)) as [Hpos | Hnpos].
  - split; [apply sqrt_lt_R0; assumption | intros Hle; lra].
  - split; [lra | reflexivity].
Qed.

(** X5.  Under Reflection a state of negative variance has a negative
    volatility entry: its diffusion matrix is the opposite of the diffusion
    matrix of the state with the variance reflected. *)
Theorem diffusion_reflection_sign (P : HestonProcess) (t : Time) (x : Array) :
  discretization_ P = Reflection ->
  at1 x < 0 ->
  m00 (diffusion P t x) < 0
  /\ diffusion P t x
     = Matrix_opp (diffusion P t (mkArray (at0 x) (- at1 x))).
Proof.
  intros Hmode Hv. unfold diffusion, Matrix_opp. cbv zeta.
  rewrite Hmode. cbn [is_Reflection at1 m00 m01 m10 m11].
  destruct (Rlt_dec 0 (at1 x)) as [Hpos | _]; [lra |].
  destruct (Rlt_dec 0 (- at1 x)) as [_ | Hnpos]; [| lra].
  assert (Hsqrt : 0 < sqrt (- at1 x)) by (apply sqrt_lt_R0; lra).
  split; [lra |].
  f_equal; ring.
Qed.

(** ** Further properties: the drift *)

(** X7.  Outside Reflection the drift at a variance v <= 0 uses a zero
    volatility: it is (r(t,t) - q(t,t), kappa (theta - v)) under
    PartialTruncation and (r(t,t) - q(t,t), kappa theta) in every other
    mode. *)
Theorem drift_truncated_at_nonpositive_variance
        (P : HestonProcess) (t : Time) (x : Array) :
  at1 x <= 0 ->
  is_Reflection (discretization_ P) = false ->
  drift P t x
  = mkArray (forwardRate (riskFreeRate_ P) t t
             - forwardRate (dividendYield_ P) t t)
            (kappa_ P * (if is_PartialTruncation (discretization_ P)
                         then theta_ P - at1 x else theta_ P)).
Proof.
  intros Hv Hmode. unfold drift. cbv zeta. rewrite Hmode.
  destruct (Rlt_dec 0 (at1 x)) as [Hpos | _]; [lra |].
  destruct (is_PartialTruncation (discretization_ P)); f_equal; lra.
Qed.

(** ** Further properties: the step evolution *)


Section Further.

Variable Phi : Real -> Real.
Variable Qinv : Real -> Real -> Size -> Real -> Result Real.
Variable eps : Real.

(** Rewrites the closed-form case selected by the hypothesis on the mode. *)
Ltac closed_form_case Hmode :=
  first [ rewrite (evolve_PartialTruncation _ _ _ _ _ _ _ _ Hmode)
        | rewrite (evolve_FullTruncation _ _ _ _ _ _ _ _ Hmode)
        | rewrite (evolve_Reflection _ _ _ _ _ _ _ _ Hmode) ].



(** X13.  Under Reflection the step sees the variance only through its
    absolute value: a state and the state with the opposite variance have
    the same next state. *)
Theorem reflection_even (P : HestonProcess) (t0 : Time) (s v : Real)
                        (dt : Time) (dw : Array) :
  discretization_ P = Reflection ->
  evolve Phi Qinv eps P t0 (mkArray s (- v)) dt dw
  = evolve Phi Qinv eps P t0 (mkArray s v) dt dw.
Proof.
  intros Hmode. rewrite !(evolve_Reflection _ _ _ _ _ _ _ _ Hmode).
  cbn [at0 at1]. rewrite Rabs_Ropp. reflexivity.
Qed.

(** X15.  The variance evolves on its own: two processes with the same
    kappa, theta, sigma, rho and mode, whatever their curves, quotes and
    initial variances, return the same next variance from two states of
    equal variance, whatever the prices and the times t0. *)
Theorem evolve_variance_autonomous (P P' : HestonProcess) (t0 t0' : Time)
                                   (x0 x0' : Array) (dt : Time) (dw : Array) :
  kappa_ P = kappa_ P' -> theta_ P = theta_ P' ->
  sigma_ P = sigma_ P' -> rho_ P = rho_ P' ->
  discretization_ P = discretization_ P' ->
  at1 x0 = at1 x0' ->
  Result_map at1 (evolve Phi Qinv eps P t0 x0 dt dw)
  = Result_map at1 (evolve Phi Qinv eps P' t0' x0' dt dw).
Proof.
  intros Hk Hth Hs Hr Hd Hv. unfold evolve. cbv zeta.
  rewrite <- Hk, <- Hth, <- Hs, <- Hr, <- Hd, <- Hv.
  destruct (discretization_ P); cbn [Result_map at1]; try reflexivity.
  destruct (Qinv _ _ _ _) as [q | msg]; reflexivity.
Qed.

(** X17.  Under the closed-form schemes the next price does not depend on
    the second shock; under ExactVariance the next variance does not
    depend on the first shock. *)
Theorem evolve_shock_dependence (P : HestonProcess) (t0 : Time) (x0 : Array)
                                (dt : Time) (w0 w1 w : Real) :
  (closed_form (discretization_ P) = true ->
   Result_map at0 (evolve Phi Qinv eps P t0 x0 dt (mkArray w0 w1))
   = Result_map at0 (evolve Phi Qinv eps P t0 x0 dt (mkArray w0 w)))
  /\ (discretization_ P = ExactVariance ->
      Result_map at1 (evolve Phi Qinv eps P t0 x0 dt (mkArray w0 w1))
      = Result_map at1 (evolve Phi Qinv eps P t0 x0 dt (mkArray w w1))).
Proof.
  split.
  - intros Hcf.
    destruct (discretization_ P) eqn:Hmode; try discriminate Hcf;
      closed_form_case Hmode; closed_form_case Hmode; reflexivity.
  - intros Hmode. rewrite !(evolve_ExactVariance _ _ _ _ _ _ _ _ Hmode).
    unfold clamped_probability. cbn [at1].
    destruct (Qinv _ _ _ _) as [q | msg]; reflexivity.
Qed.

End Further.

(** ** The further properties at concrete processes *)

Lemma diffusion_vol_positive_witness :
  is_Reflection (discretization_ (scenario FullTruncation)) = false
  /\ 0 < m00 (diffusion (scenario FullTruncation) 0 (mkArray 100 (-0.01))).
Proof.
  split; [reflexivity |].
  exact (proj1 (diffusion_vol_positive (scenario FullTruncation) 0
                  (mkArray 100 (-0.01)) eq_refl)).
Defined.

Lemma diffusion_reflection_sign_witness :
  discretization_ (scenario Reflection) = Reflection
  /\ at1 (mkArray 100 (-0.01)) < 0
  /\ m00 (diffusion (scenario Reflection) 0 (mkArray 100 (-0.01))) < 0.
Proof.
  assert (Hv : at1 (mkArray 100 (-0.01)) < 0) by (cbn; lra).
  split; [reflexivity |]. split; [exact Hv |].
  exact (proj1 (diffusion_reflection_sign (scenario Reflection) 0
                  (mkArray 100 (-0.01)) eq_refl Hv)).
Defined.

Lemma drift_truncated_at_nonpositive_variance_witness :
  at1 (mkArray 100 (-0.01)) <= 0
  /\ is_Reflection (discretization_ (other_market FullTruncation)) = false
  /\ drift (other_market FullTruncation) 2 (mkArray 100 (-0.01))
     = mkArray (forwardRate (riskFreeRate_ (other_market FullTruncation)) 2 2
                - forwardRate (dividendYield_ (other_market FullTruncation)) 2 2)
               (kappa_ (other_market FullTruncation)
                * theta_ (other_market FullTruncation)).
Proof.
  assert (Hv : at1 (mkArray 100 (-0.01)) <= 0) by (cbn; lra).
  split; [exact Hv |]. split; [reflexivity |].
  exact (drift_truncated_at_nonpositive_variance
           (other_market FullTruncation) 2 (mkArray 100 (-0.01)) Hv eq_refl).
Defined.



Lemma reflection_even_witness :
  discretization_ (scenario Reflection) = Reflection
  /\ evolve Phi_half Qinv_one eps_double (scenario Reflection)
            0 (mkArray 100 (- (0.04))) (/ 252) (mkArray 1 (-1))
     = evolve Phi_half Qinv_one eps_double (scenario Reflection)
              0 (mkArray 100 0.04) (/ 252) (mkArray 1 (-1)).
Proof.
  split; [reflexivity |].
  exact (reflection_even Phi_half Qinv_one eps_double (scenario Reflection)
           0 100 0.04 (/ 252) (mkArray 1 (-1)) eq_refl).
Defined.

Lemma evolve_variance_autonomous_witness :
  kappa_ (scenario ExactVariance) = kappa_ (other_market ExactVariance)
  /\ theta_ (scenario ExactVariance) = theta_ (other_market ExactVariance)
  /\ sigma_ (scenario ExactVariance) = sigma_ (other_market ExactVariance)
  /\ rho_ (scenario ExactVariance) = rho_ (other_market ExactVariance)
  /\ at1 spot_state = at1 (mkArray 55 0.04)
  /\ Result_map at1
       (evolve Phi_half Qinv_echo eps_double (scenario ExactVariance)
               0 spot_state (/ 252) (mkArray 1 (-1)))
     = Result_map at1
         (evolve Phi_half Qinv_echo eps_double (other_market ExactVariance)
                 3 (mkArray 55 0.04) (/ 252) (mkArray 1 (-1))).
Proof.
  repeat (split; [reflexivity |]).
  exact (evolve_variance_autonomous Phi_half Qinv_echo eps_double
           (scenario ExactVariance) (other_market ExactVariance) 0 3
           spot_state (mkArray 55 0.04) (/ 252) (mkArray 1 (-1))
           eq_refl eq_refl eq_refl eq_refl eq_refl eq_refl).
Defined.

Lemma evolve_shock_dependence_witness :
  closed_form (discretization_ (scenario PartialTruncation)) = true
  /\ Result_map at0
       (evolve Phi_half Qinv_one eps_double (scenario PartialTruncation)
               0 spot_state (/ 252) (mkArray 1 (-1)))
     = Result_map at0
         (evolve Phi_half Qinv_one eps_double (scenario PartialTruncation)
                 0 spot_state (/ 252) (mkArray 1 2)).
Proof.
  split; [reflexivity |].
  exact (proj1 (evolve_shock_dependence Phi_half Qinv_one eps_double
                  (scenario PartialTruncation) 0 spot_state (/ 252)
                  1 (-1) 2) eq_refl).
Defined.


(** ** Binary64 arithmetic: signs, zeros and the exact operations

    Facts about the kernel's floats, from their specification in
    [FloatAxioms] and [SpecFloat]: rounding keeps the sign, a finite number
    times a zero is a zero, adding a zero changes no number but the negative
    zero, and multiplying by one is exact. *)

Module B64Facts.

Import B64.
Local Open Scope float_scope.
Set Warnings "-inexact-float".

Lemma Prim2SF_zero : Prim2SF 0 = S754_zero false.
Proof. reflexivity. Qed.

Lemma SFcompare_refl_finite s m e :
  SFcompare (S754_finite s m e) (S754_finite s m e) = Some Eq.
Proof.
  cbn. rewrite Z.compare_refl, Pos.compare_cont_refl. destruct s; reflexivity.
Qed.

Lemma is_nan_false x : is_nan x = false -> Prim2SF x <> S754_nan.
Proof.
  unfold is_nan. rewrite FloatAxioms.eqb_spec. intros H E. rewrite E in H. discriminate.
Qed.

Lemma is_finite_shape x :
  is_finite x = true ->
  (exists s, Prim2SF x = S754_zero s) \/ (exists s m e, Prim2SF x = S754_finite s m e).
Proof.
  unfold is_finite, is_nan, is_infinity. rewrite !FloatAxioms.eqb_spec, abs_spec.
  destruct (Prim2SF x) as [s | s | | s m e] eqn:E; cbn.
  - intros _. left. eauto.
  - change (Prim2SF infinity) with (S754_infinity false). cbn.
    rewrite orb_true_r. discriminate.
  - discriminate.
  - intros _. right. eauto.
Qed.

Lemma pos_shape x :
  (0 <? x) = true ->
  Prim2SF x = S754_infinity false \/ exists m e, Prim2SF x = S754_finite false m e.
Proof.
  rewrite ltb_spec, Prim2SF_zero.
  destruct (Prim2SF x) as [s | [|] | | [|] m e]; cbn; try discriminate; eauto.
Qed.

Lemma shr_1_nonneg mrs : nonneg_rec mrs -> nonneg_rec (shr_1 mrs).
Proof.
  destruct mrs as [m r s]. unfold nonneg_rec.
  destruct m as [| [p | p |] | p]; cbn; lia.
Qed.

Lemma iter_pos_shr_1_nonneg p :
  forall mrs, nonneg_rec mrs -> nonneg_rec (SpecFloat.iter_pos shr_1 p mrs).
Proof.
  induction p as [p IH | p IH |]; intros mrs H; cbn.
  - apply IH, IH, shr_1_nonneg, H.
  - apply IH, IH, H.
  - apply shr_1_nonneg, H.
Qed.

Lemma shr_nonneg mrs e n : nonneg_rec mrs -> nonneg_rec (fst (shr mrs e n)).
Proof.
  intros H. unfold shr. destruct n; cbn; try assumption.
  apply iter_pos_shr_1_nonneg, H.
Qed.

Lemma shr_fexp_nonneg m e l :
  (0 <= m)%Z -> nonneg_rec (fst (shr_fexp prec emax m e l)).
Proof.
  intros H. unfold shr_fexp. apply shr_nonneg.
  destruct l as [| []]; exact H.
Qed.

Lemma round_nearest_even_nonneg m l :
  (0 <= m)%Z -> (0 <= round_nearest_even m l)%Z.
Proof.
  intros H. unfold round_nearest_even.
  destruct l as [| []]; try destruct (Z.even m); lia.
Qed.

Lemma binary_round_aux_sign sx mx ex lx :
  (0 <= mx)%Z -> signed_as sx (binary_round_aux prec emax sx mx ex lx).
Proof.
  intros H. unfold binary_round_aux.
  pose proof (shr_fexp_nonneg mx ex lx H) as H1.
  destruct (shr_fexp prec emax mx ex lx) as [mrs' e'].
  cbn [fst] in H1.
  pose proof (shr_fexp_nonneg _ e' loc_Exact
                (round_nearest_even_nonneg _ (loc_of_shr_record mrs') H1)) as H2.
  destruct (shr_fexp prec emax _ e' loc_Exact) as [mrs'' e''].
  cbn [fst] in H2. unfold nonneg_rec in H2.
  destruct (shr_m mrs'') as [| p | p]; cbn.
  - reflexivity.
  - destruct (Z.leb e'' _); reflexivity.
  - lia.
Qed.

Lemma is_zero_shape z :
  is_zero z = true <-> exists s, Prim2SF z = S754_zero s.
Proof.
  unfold is_zero. rewrite FloatAxioms.eqb_spec.
  change (Prim2SF zero) with (S754_zero false).
  destruct (Prim2SF z) as [s | [|] | | [|] m e]; cbn; split;
    try discriminate; try (intros [s' Hs]; discriminate); eauto.
Qed.

Lemma not_negative_shape x :
  (x <? 0) = false <->
  match Prim2SF x with
  | S754_finite true _ _ | S754_infinity true => False
  | _ => True
  end.
Proof.
  rewrite ltb_spec, Prim2SF_zero.
  destruct (Prim2SF x) as [s | [|] | | [|] m e]; cbn; split;
    try discriminate; try contradiction; auto.
Qed.

Lemma mul_finite_sign sx mx ex sy my ey :
  signed_as (xorb sx sy)
    (SF64mul (S754_finite sx mx ex) (S754_finite sy my ey)).
Proof. apply binary_round_aux_sign. lia. Qed.

(** A positive number times a number that is not negative is not negative. *)
Lemma mul_not_negative x e :
  (0 <? x) = true -> (e <? 0) = false -> (x * e <? 0) = false.
Proof.
  intros Hx He. apply not_negative_shape. apply not_negative_shape in He.
  rewrite mul_spec.
  destruct (pos_shape x Hx) as [Ex | (mx & ex & Ex)]; rewrite Ex;
    destruct (Prim2SF e) as [s | [|] | | [|] m e']; cbn; try contradiction; auto.
  pose proof (mul_finite_sign false mx ex false m e') as H.
  unfold SF64mul, SFmul in H.
  destruct (binary_round_aux _ _ _ _ _ _) as [s | s | | s m' e'']; cbn in *;
    subst; auto.
Qed.

Lemma mul_zero_r x z :
  is_finite x = true -> is_zero z = true -> is_zero (x * z) = true.
Proof.
  intros Hx Hz. apply is_zero_shape. apply is_zero_shape in Hz as [s Hz].
  rewrite mul_spec, Hz.
  destruct (is_finite_shape x Hx) as [[s' E] | (s' & m & e & E)]; rewrite E;
    cbn; eauto.
Qed.

Lemma mul_zero_l z x :
  is_zero z = true -> is_finite x = true -> is_zero (z * x) = true.
Proof.
  intros Hz Hx. apply is_zero_shape. apply is_zero_shape in Hz as [s Hz].
  rewrite mul_spec, Hz.
  destruct (is_finite_shape x Hx) as [[s' E] | (s' & m & e & E)]; rewrite E;
    cbn; eauto.
Qed.

Lemma add_zero_zero a b :
  is_zero a = true -> is_zero b = true -> is_zero (a + b) = true.
Proof.
  intros Ha Hb. apply is_zero_shape.
  apply is_zero_shape in Ha as [sa Ha]. apply is_zero_shape in Hb as [sb Hb].
  rewrite add_spec, Ha, Hb. destruct sa, sb; cbn; eauto.
Qed.

(** Adding a zero of either sign changes nothing but a negative zero. *)
Lemma add_zero_r x z :
  Prim2SF x <> S754_zero true -> is_zero z = true -> x + z = x.
Proof.
  intros Hx Hz. apply is_zero_shape in Hz as [s Hz].
  apply Prim2SF_inj. rewrite add_spec, Hz.
  destruct (Prim2SF x) as [[|] | sx | | sx m e]; cbn; try reflexivity.
  - contradiction.
  - destruct s; reflexivity.
Qed.

Lemma Prim2SF_one : Prim2SF 1 = S754_finite false 4503599627370496 (-52).
Proof. reflexivity. Qed.

Lemma round_times_one s m e :
  SpecFloat.bounded prec emax m e = true ->
  binary_round_aux prec emax s (Zpos (Pos.mul m 4503599627370496))
                   (Z.add e (-52)) loc_Exact
  = S754_finite s m e.
Proof.
  unfold SpecFloat.bounded, canonical_mantissa. intros Hb.
  apply andb_prop in Hb as [Hc Hle].
  apply Z.eqb_eq in Hc.
  rewrite Pos.mul_comm. cbn [Pos.mul].
  unfold binary_round_aux, shr_fexp at 1.
  cbn [Zdigits2 digits2_pos shr_record_of_loc].
  match goal with
  | |- context [shr _ _ ?n] =>
      replace n with 52%Z
  end.
  2:{ rewrite <- Hc at 2.
      match goal with |- _ = (fexp _ _ ?a - _)%Z => 
        replace a with (Z.pos (digits2_pos m) + e)%Z by lia end.
      lia. }
  unfold shr. cbn [SpecFloat.iter_pos shr_1 orb].
  cbn [shr_m shr_r shr_s loc_of_shr_record round_nearest_even].
  unfold shr_fexp. cbn [Zdigits2 shr_record_of_loc].
  replace (e + -52 + 52)%Z with e by lia.
  rewrite Hc, Z.sub_diag. cbn [shr shr_m]. rewrite Hle. reflexivity.
Qed.

(** Multiplication by one is exact. *)
Lemma mul_one_r x : x * 1 = x.
Proof.
  apply Prim2SF_inj. rewrite mul_spec, Prim2SF_one.
  pose proof (Prim2SF_valid x) as Hv.
  destruct (Prim2SF x) as [s | s | | s m e]; cbn [SF64mul SFmul].
  - unfold SF64mul, SFmul. destruct s; reflexivity.
  - unfold SF64mul, SFmul. destruct s; reflexivity.
  - reflexivity.
  - unfold SF64mul, SFmul. rewrite xorb_false_r.
    apply round_times_one. exact Hv.
Qed.

Lemma abs_not_nan_shape x :
  is_nan x = false -> plus_shape (Prim2SF (PrimFloat.abs x)).
Proof.
  intros H. apply is_nan_false in H. rewrite abs_spec.
  destruct (Prim2SF x); cbn; auto.
Qed.

Lemma sqrt_plus_shape x :
  plus_shape (Prim2SF x) -> plus_shape (Prim2SF (PrimFloat.sqrt x)).
Proof.
  rewrite sqrt_spec.
  destruct (Prim2SF x) as [[|] | [|] | | [|] m e]; cbn [plus_shape];
    try contradiction; intros _; try exact I.
  unfold SF64sqrt, SFsqrt.
  destruct (SFsqrt_core_binary prec emax (Z.pos m) e) as [[mz ez] lz] eqn:E.
  assert (Hmz : (0 <= mz)%Z).
  { unfold SFsqrt_core_binary in E.
    match type of E with
    | (let (q, r) := Z.sqrtrem ?a in _) = _ =>
        pose proof (Z.sqrtrem_spec a) as Hs;
        destruct (Z.sqrtrem a) as [q r]
    end.
    injection E as <- _ _.
    match type of Hs with
    | (0 <= ?a)%Z -> _ => assert (Ha : (0 <= a)%Z)
    end.
    { destruct (e - 2 * _)%Z; try lia.
      change (0 <= Z.shiftl (Z.pos m) (Z.pos p))%Z. apply Z.shiftl_nonneg. lia. }
    specialize (Hs Ha). lia. }
  pose proof (binary_round_aux_sign false mz ez lz Hmz) as H.
  destruct (binary_round_aux _ _ _ _ _ _) as [s | s | | s m' e']; cbn in *;
    subst; auto.
Qed.

(** The square of a number of the shapes +0, positive finite, +infinity. *)
Lemma square_plus_shape x :
  plus_shape (Prim2SF x) -> plus_shape (Prim2SF (x * x)).
Proof.
  rewrite mul_spec.
  destruct (Prim2SF x) as [[|] | [|] | | [|] m e]; cbn [plus_shape];
    try contradiction; intros _; try exact I.
  pose proof (mul_finite_sign false m e false m e) as H.
  destruct (SF64mul _ _) as [s | s | | s m' e']; cbn in *; subst; auto.
Qed.

Lemma plus_shape_not_neg_zero f : plus_shape f -> f <> S754_zero true.
Proof. destruct f as [[|] | | |]; cbn; intros H; try contradiction; discriminate. Qed.

Lemma pos_not_neg_zero x : (0 <? x) = true -> Prim2SF x <> S754_zero true.
Proof.
  intros H. destruct (pos_shape x H) as [E | (m & e & E)]; rewrite E; discriminate.
Qed.

Lemma neg_shape x :
  (x <? 0) = true ->
  Prim2SF x = S754_infinity true \/ exists m e, Prim2SF x = S754_finite true m e.
Proof.
  rewrite ltb_spec, Prim2SF_zero.
  destruct (Prim2SF x) as [s | [|] | | [|] m e]; cbn; try discriminate; eauto.
Qed.

Lemma is_zero_cases z : is_zero z = true -> z = 0 \/ z = -0.
Proof.
  intros H. apply is_zero_shape in H as [[|] H]; [right | left];
    apply Prim2SF_inj; rewrite H; reflexivity.
Qed.

Lemma Returns_inj {A : Type} (a b : A) : Returns a = Returns b -> a = b.
Proof.
  intros H.
  exact (f_equal (fun r => match r with Returns x => x | QL_FAIL _ => a end) H).
Qed.

Lemma float_neq a b : Leibniz.eqb a b = false -> a <> b.
Proof.
  intros H E. apply Leibniz.eqb_spec in E. rewrite E in H. discriminate.
Qed.

(** A positive finite number times a number that is at least zero is at
    least zero. *)
Lemma mul_nonneg x e :
  (0 <? x) = true -> is_finite x = true -> (0 <=? e) = true ->
  (0 <=? x * e) = true.
Proof.
  intros Hx Hf He. rewrite leb_spec, Prim2SF_zero in *. rewrite mul_spec.
  destruct (pos_shape x Hx) as [Ex | (mx & ex & Ex)].
  - destruct (is_finite_shape x Hf) as [[s E] | (s & m & e' & E)];
      rewrite E in Ex; discriminate.
  - rewrite Ex.
    destruct (Prim2SF e) as [s | [|] | | [|] m e']; cbn in He;
      try discriminate; cbn; try reflexivity.
    pose proof (mul_finite_sign false mx ex false m e') as H.
    unfold SF64mul, SFmul in H.
    destruct (binary_round_aux _ _ _ _ _ _) as [s | s | | s m' e'']; cbn in *;
      subst; auto; contradiction.
Qed.

Lemma abs_positive v : (0 <? v) = true -> PrimFloat.abs v = v.
Proof.
  intros H. apply Prim2SF_inj. rewrite abs_spec.
  destruct (pos_shape v H) as [E | (m & e & E)]; rewrite E; reflexivity.
Qed.

Lemma positive_not_nan v : (0 <? v) = true -> is_nan v = false.
Proof.
  intros H. unfold is_nan. rewrite FloatAxioms.eqb_spec.
  destruct (pos_shape v H) as [E | (m & e & E)]; rewrite E.
  - reflexivity.
  - unfold SFeqb. rewrite SFcompare_refl_finite. reflexivity.
Qed.

Lemma negative_not_nan v : (v <? 0) = true -> is_nan v = false.
Proof.
  intros H. unfold is_nan. rewrite FloatAxioms.eqb_spec.
  destruct (neg_shape v H) as [E | (m & e & E)]; rewrite E.
  - reflexivity.
  - unfold SFeqb. rewrite SFcompare_refl_finite. reflexivity.
Qed.

(** The volatility of Reflection squares to +0, a positive number or
    +infinity whenever the variance is not a NaN. *)
Lemma reflected_vol_square_shape v :
  is_nan v = false ->
  plus_shape (Prim2SF (reflected_vol v * reflected_vol v)).
Proof.
  intros H. apply square_plus_shape, sqrt_plus_shape, abs_not_nan_shape, H.
Qed.

Lemma plus_shape_not_negative x :
  plus_shape (Prim2SF x) -> (x <? 0) = false.
Proof.
  intros H. apply not_negative_shape.
  destruct (Prim2SF x) as [[|] | [|] | | [|] m e]; cbn in *; auto.
Qed.

Lemma sqrt_zero z : is_zero z = true -> is_zero (PrimFloat.sqrt z) = true.
Proof.
  intros Hz. apply is_zero_shape. apply is_zero_shape in Hz as [s Hz].
  rewrite sqrt_spec, Hz. cbn. eauto.
Qed.

(** At dt = 0 the exponent of a closed-form step is a zero. *)
Lemma exponent_dt0 mu volw dt :
  is_zero dt = true ->
  is_finite mu = true -> is_finite volw = true ->
  is_zero (mu * dt + volw * PrimFloat.sqrt dt) = true.
Proof.
  intros Hdt Hmu Hvw.
  apply add_zero_zero; apply mul_zero_r; auto using sqrt_zero.
Qed.

(** At dt = 0 the variance of a closed-form step is the number it starts
    from, unless that is the negative zero. *)
Lemma variance_dt0 b nu vol2 S dt :
  is_zero dt = true ->
  Prim2SF b <> S754_zero true ->
  is_finite nu = true -> is_finite vol2 = true -> is_finite S = true ->
  b + nu * dt + vol2 * PrimFloat.sqrt dt * S = b.
Proof.
  intros Hdt Hb Hnu Hv2 HS.
  rewrite (add_zero_r b (nu * dt) Hb) by (apply mul_zero_r; auto).
  apply add_zero_r; [exact Hb |].
  apply mul_zero_l; [apply mul_zero_r; auto using sqrt_zero | exact HS].
Qed.

Lemma finite_terms_split P t0 dt dw vol nu :
  finite_terms P t0 dt dw vol nu = true ->
  is_finite (fwdDrift P t0 dt - 0.5 * vol * vol) = true
  /\ is_finite (vol * at0 dw) = true
  /\ is_finite nu = true
  /\ is_finite (sigma_ P * vol) = true
  /\ is_finite (variance_shock P dw) = true.
Proof.
  unfold finite_terms. intros H.
  repeat (apply andb_prop in H as [H ?]). auto.
Qed.

(** ** Properties of the step in binary64 arithmetic *)

Section Binary64Claims.

Variable std_exp : float -> float.
Variable Phi : float -> float.
Variable Qinv : float -> float -> N -> float -> Result float.
Variable eps : float.

(** C1 (amended).  For a state of variance > 0 and terms that are finite,
    [evolve] with dt = 0 (a zero of either sign) returns the input state bit
    for bit under PartialTruncation and FullTruncation; under Reflection it
    returns (x0.price, vol * vol) with vol = sqrt |x0.variance|, which is
    the input variance only up to the rounding of the square root.
    [std::exp] is 1 at either zero. *)
Theorem evolve_dt0_binary64 (P : HestonProcess) (t0 : float) (x0 : Array)
                            (dt : float) (dw : Array) :
  std_exp 0 = 1 -> std_exp (-0) = 1 ->
  is_zero dt = true ->
  (0 <? at1 x0) = true ->
  (discretization_ P = PartialTruncation ->
   finite_terms P t0 dt dw (truncated_vol (at1 x0))
                (kappa_ P * (theta_ P - at1 x0)) = true ->
   evolve std_exp Phi Qinv eps P t0 x0 dt dw = Returns x0)
  /\ (discretization_ P = FullTruncation ->
      finite_terms P t0 dt dw (truncated_vol (at1 x0))
                   (kappa_ P * (theta_ P - truncated_vol (at1 x0)
                                           * truncated_vol (at1 x0))) = true ->
      evolve std_exp Phi Qinv eps P t0 x0 dt dw = Returns x0)
  /\ (discretization_ P = Reflection ->
      finite_terms P t0 dt dw (reflected_vol (at1 x0))
                   (kappa_ P * (theta_ P - reflected_vol (at1 x0)
                                           * reflected_vol (at1 x0))) = true ->
      evolve std_exp Phi Qinv eps P t0 x0 dt dw
      = Returns (mkArray (at0 x0)
                         (reflected_vol (at1 x0) * reflected_vol (at1 x0)))).
Proof.
  intros Hexp0 Hexpn0 Hdt Hv.
  assert (Hone : forall z, is_zero z = true -> std_exp z = 1).
  { intros z Hz. destruct (is_zero_cases z Hz) as [-> | ->]; assumption. }
  pose proof (pos_not_neg_zero _ Hv) as Hb.
  repeat split; intros Hmode Hfin;
    apply finite_terms_split in Hfin as (Hmu & Hvw & Hnu & Hv2 & HS);
    unfold evolve; rewrite Hmode; cbv zeta;
    fold (truncated_vol (at1 x0)); fold (reflected_vol (at1 x0));
    fold (fwdDrift P t0 dt); fold (variance_shock P dw).
  - rewrite (Hone _ (exponent_dt0 _ _ _ Hdt Hmu Hvw)), mul_one_r.
    rewrite (variance_dt0 _ _ _ _ _ Hdt Hb Hnu Hv2 HS).
    destruct x0; reflexivity.
  - rewrite (Hone _ (exponent_dt0 _ _ _ Hdt Hmu Hvw)), mul_one_r.
    rewrite (variance_dt0 _ _ _ _ _ Hdt Hb Hnu Hv2 HS).
    destruct x0; reflexivity.
  - rewrite (Hone _ (exponent_dt0 _ _ _ Hdt Hmu Hvw)), mul_one_r.
    rewrite (variance_dt0 _ _ _ _ _ Hdt
               (plus_shape_not_neg_zero _
                  (reflected_vol_square_shape _ (positive_not_nan _ Hv)))
               Hnu Hv2 HS).
    reflexivity.
Qed.

(** C9 (amended).  Under Reflection, for a state of variance < 0 and terms
    that are finite, [evolve] with dt = 0 (a zero of either sign) returns
    (x0.price, vol * vol) with vol = sqrt |x0.variance|: the price is
    unchanged and the returned variance is not negative, so the returned
    state is not the input state; it is the opposite of the input variance
    up to the rounding of the square root. *)
Theorem reflection_dt0_negative_variance_binary64
        (P : HestonProcess) (t0 : float) (x0 : Array) (dt : float) (dw : Array) :
  std_exp 0 = 1 -> std_exp (-0) = 1 ->
  is_zero dt = true ->
  discretization_ P = Reflection ->
  (at1 x0 <? 0) = true ->
  finite_terms P t0 dt dw (reflected_vol (at1 x0))
               (kappa_ P * (theta_ P - reflected_vol (at1 x0)
                                       * reflected_vol (at1 x0))) = true ->
  evolve std_exp Phi Qinv eps P t0 x0 dt dw
  = Returns (mkArray (at0 x0)
                     (reflected_vol (at1 x0) * reflected_vol (at1 x0)))
  /\ (reflected_vol (at1 x0) * reflected_vol (at1 x0) <? 0) = false
  /\ evolve std_exp Phi Qinv eps P t0 x0 dt dw <> Returns x0.
Proof.
  intros Hexp0 Hexpn0 Hdt Hmode Hv Hfin.
  assert (Hone : forall z, is_zero z = true -> std_exp z = 1).
  { intros z Hz. destruct (is_zero_cases z Hz) as [-> | ->]; assumption. }
  pose proof (reflected_vol_square_shape _ (negative_not_nan _ Hv)) as Hshape.
  pose proof (plus_shape_not_negative _ Hshape) as Hnot_neg.
  apply finite_terms_split in Hfin as (Hmu & Hvw & Hnu & Hv2 & HS).
  assert (Hret : evolve std_exp Phi Qinv eps P t0 x0 dt dw
                 = Returns (mkArray (at0 x0)
                              (reflected_vol (at1 x0) * reflected_vol (at1 x0)))).
  { unfold evolve. rewrite Hmode. cbv zeta.
    fold (reflected_vol (at1 x0)). fold (fwdDrift P t0 dt).
    fold (variance_shock P dw).
    rewrite (Hone _ (exponent_dt0 _ _ _ Hdt Hmu Hvw)), mul_one_r.
    rewrite (variance_dt0 _ _ _ _ _ Hdt (plus_shape_not_neg_zero _ Hshape)
                          Hnu Hv2 HS).
    reflexivity. }
  split; [exact Hret |]. split; [exact Hnot_neg |].
  rewrite Hret. intros Heq. destruct x0 as [s v]. cbn [at0 at1] in *.
  apply Returns_inj in Heq.
  apply (f_equal at1) in Heq. cbn [at1] in Heq.
  rewrite Heq in Hnot_neg. rewrite Hnot_neg in Hv. discriminate.
Qed.



(** C8 (amended).  For every state and raw increment, [apply] returns
    (x0.price * exp(dlogprice), x0.variance + dvariance) as doubles, and for
    a state of price > 0 the returned price is never negative unless
    [std::exp] returns a negative number; it is at least zero when x0.price
    is finite and the value of [std::exp] is at least zero.  It is zero, not
    strictly positive, when [std::exp] underflows. *)
Theorem apply_binary64 (P : HestonProcess) (x0 dx : Array) :
  apply std_exp P x0 dx
  = mkArray (at0 x0 * std_exp (at0 dx)) (at1 x0 + at1 dx)
  /\ ((0 <? at0 x0) = true -> (std_exp (at0 dx) <? 0) = false ->
      (at0 (apply std_exp P x0 dx) <? 0) = false)
  /\ ((0 <? at0 x0) = true -> is_finite (at0 x0) = true ->
      (0 <=? std_exp (at0 dx)) = true ->
      (0 <=? at0 (apply std_exp P x0 dx)) = true).
Proof.
  split; [reflexivity |]. split.
  - intros Hs He. cbn [apply at0]. apply mul_not_negative; assumption.
  - intros Hs Hf He. cbn [apply at0]. apply mul_nonneg; assumption.
Qed.

(** The two volatilities agree on a variance that is at least zero. *)
Lemma reflected_vol_nonneg (v : float) :
  (0 <=? v) = true -> reflected_vol v = truncated_vol v.
Proof.
  intros Hle. unfold reflected_vol, truncated_vol.
  destruct (0 <? v) eqn:Hlt.
  - rewrite (abs_positive v Hlt). reflexivity.
  - apply Prim2SF_inj. rewrite sqrt_spec, abs_spec, Prim2SF_zero.
    rewrite leb_spec, Prim2SF_zero in Hle.
    rewrite ltb_spec, Prim2SF_zero in Hlt.
    destruct (Prim2SF v) as [s | [|] | | [|] m e]; cbn in *;
      try discriminate; reflexivity.
Qed.

(** X12.  For a variance that is at least zero, Reflection and
    FullTruncation return the same next price, and the same next state
    whenever the vol squares back to the variance, vol * vol = x0.variance:
    Reflection starts the variance from vol * vol, FullTruncation from
    x0.variance. *)
Theorem reflection_full_truncation_binary64
        (P : HestonProcess) (t0 : float) (x0 : Array) (dt : float) (dw : Array) :
  (0 <=? at1 x0) = true ->
  Result_map at0
    (evolve std_exp Phi Qinv eps (with_discretization P Reflection)
            t0 x0 dt dw)
  = Result_map at0
      (evolve std_exp Phi Qinv eps (with_discretization P FullTruncation)
              t0 x0 dt dw)
  /\ (truncated_vol (at1 x0) * truncated_vol (at1 x0) = at1 x0 ->
      evolve std_exp Phi Qinv eps (with_discretization P Reflection)
             t0 x0 dt dw
      = evolve std_exp Phi Qinv eps (with_discretization P FullTruncation)
               t0 x0 dt dw).
Proof.
  intros Hv. pose proof (reflected_vol_nonneg _ Hv) as Hvol.
  unfold evolve. cbv zeta.
  cbn [with_discretization discretization_ kappa_ theta_ sigma_ rho_
       riskFreeRate_ dividendYield_].
  fold (reflected_vol (at1 x0)). fold (truncated_vol (at1 x0)).
  rewrite Hvol. split; [reflexivity |].
  intros Hsq. rewrite Hsq at 1. reflexivity.
Qed.

End Binary64Claims.

(** ** The binary64 properties at the concrete scenario *)



Lemma evolve_dt0_binary64_witness :
  exp_stand_in 0 = 1 /\ exp_stand_in (-0) = 1
  /\ is_zero 0 = true
  /\ (0 <? at1 spot_state) = true
  /\ finite_terms (scenario FullTruncation) 0 0 (mkArray 1 (-1))
        (truncated_vol (at1 spot_state))
        (kappa_ (scenario FullTruncation)
         * (theta_ (scenario FullTruncation)
            - truncated_vol (at1 spot_state) * truncated_vol (at1 spot_state)))
      = true
  /\ evolve exp_stand_in Phi_half Qinv_one eps_double
            (scenario FullTruncation) 0 spot_state 0 (mkArray 1 (-1))
     = Returns spot_state.
Proof.
  repeat (split; [reflexivity |]).
  apply (evolve_dt0_binary64 exp_stand_in Phi_half Qinv_one eps_double
           (scenario FullTruncation) 0 spot_state 0 (mkArray 1 (-1)));
    reflexivity.
Defined.

(** With dt = 0 the step is not the identity under Reflection, where the
    returned variance is the square of the rounded square root,
    0.040000000000000008 for the input 0.04, nor under ExactVariance, where
    the scale factor of the sampled variance is zero and the returned
    variance is 0; and under PartialTruncation a variance drift that has
    overflowed gives infinity * 0, a NaN. *)
Lemma dt0_not_identity_binary64 :
  (0 <? at1 spot_state) = true
  /\ evolve exp_stand_in Phi_half Qinv_one eps_double
            (scenario Reflection) 0 spot_state 0 (mkArray 1 (-1))
     = Returns (mkArray 100 0.040000000000000008)
  /\ evolve exp_stand_in Phi_half Qinv_one eps_double
            (scenario Reflection) 0 spot_state 0 (mkArray 1 (-1))
     <> Returns spot_state
  /\ Result_map at1
       (evolve exp_stand_in Phi_half Qinv_one eps_double
               (scenario ExactVariance) 0 spot_state 0 (mkArray 1 (-1)))
     = Returns 0
  /\ evolve exp_stand_in Phi_half Qinv_one eps_double
            (scenario ExactVariance) 0 spot_state 0 (mkArray 1 (-1))
     <> Returns spot_state
  /\ evolve exp_stand_in Phi_half Qinv_one eps_double
            (overflowing PartialTruncation) 0 spot_state 0 (mkArray 1 (-1))
     = Returns (mkArray 100 nan)
  /\ evolve exp_stand_in Phi_half Qinv_one eps_double
            (overflowing PartialTruncation) 0 spot_state 0 (mkArray 1 (-1))
     <> Returns spot_state.
Proof.
  split; [reflexivity |]. split; [reflexivity |].
  split; [| split; [| split; [| split]]]; try reflexivity;
    intros H; apply (f_equal (Result_map at1)) in H; vm_compute in H;
    apply Returns_inj in H; revert H; apply float_neq; reflexivity.
Qed.

Lemma reflection_dt0_negative_variance_binary64_witness :
  exp_stand_in 0 = 1 /\ exp_stand_in (-0) = 1
  /\ is_zero 0 = true
  /\ discretization_ (scenario Reflection) = Reflection
  /\ (at1 (mkArray 100 (-0.01)) <? 0) = true
  /\ evolve exp_stand_in Phi_half Qinv_one eps_double
            (scenario Reflection) 0 (mkArray 100 (-0.01)) 0 (mkArray 1 (-1))
     = Returns (mkArray 100 (reflected_vol (-0.01) * reflected_vol (-0.01))).
Proof.
  repeat (split; [reflexivity |]).
  exact (proj1 (reflection_dt0_negative_variance_binary64
                  exp_stand_in Phi_half Qinv_one eps_double
                  (scenario Reflection) 0 (mkArray 100 (-0.01)) 0
                  (mkArray 1 (-1)) eq_refl eq_refl eq_refl eq_refl eq_refl
                  eq_refl)).
Defined.

(** Under Reflection with dt = 0 the variance -0.01 comes back as
    0.010000000000000002, not as 0.01; and with a variance drift that has
    overflowed it comes back as a NaN. *)
Lemma reflection_dt0_not_the_opposite :
  (at1 (mkArray 100 (-0.01)) <? 0) = true
  /\ evolve exp_stand_in Phi_half Qinv_one eps_double
            (scenario Reflection) 0 (mkArray 100 (-0.01)) 0 (mkArray 1 (-1))
     = Returns (mkArray 100 0.010000000000000002)
  /\ evolve exp_stand_in Phi_half Qinv_one eps_double
            (scenario Reflection) 0 (mkArray 100 (-0.01)) 0 (mkArray 1 (-1))
     <> Returns (mkArray 100 (- at1 (mkArray 100 (-0.01))))
  /\ evolve exp_stand_in Phi_half Qinv_one eps_double
            (overflowing Reflection) 0 (mkArray 100 (-0.01)) 0 (mkArray 1 (-1))
     = Returns (mkArray 100 nan)
  /\ evolve exp_stand_in Phi_half Qinv_one eps_double
            (overflowing Reflection) 0 (mkArray 100 (-0.01)) 0 (mkArray 1 (-1))
     <> Returns (mkArray 100 (- at1 (mkArray 100 (-0.01)))).
Proof.
  split; [reflexivity |]. split; [reflexivity |].
  split; [| split]; try reflexivity;
    intros H; apply (f_equal (Result_map at1)) in H; vm_compute in H;
    apply Returns_inj in H; revert H; apply float_neq; reflexivity.
Qed.





Lemma apply_binary64_witness :
  (0 <? at0 spot_state) = true
  /\ (exp_stand_in (at0 (mkArray (-3) 0.01)) <? 0) = false
  /\ (at0 (apply exp_stand_in (scenario Euler) spot_state (mkArray (-3) 0.01))
      <? 0) = false.
Proof.
  split; [reflexivity |]. split; [reflexivity |].
  exact (proj1 (proj2 (apply_binary64 exp_stand_in (scenario Euler) spot_state
                         (mkArray (-3) 0.01))) eq_refl eq_refl).
Defined.

(** The increment -800 makes [std::exp] underflow: the returned price is
    zero, not strictly positive. *)
Lemma apply_price_underflows :
  (0 <? at0 spot_state) = true
  /\ at0 (apply exp_stand_in (scenario Euler) spot_state (mkArray (-800) 0))
     = 0
  /\ (0 <? at0 (apply exp_stand_in (scenario Euler) spot_state
                      (mkArray (-800) 0))) = false.
Proof. repeat split; reflexivity. Qed.

Lemma reflection_full_truncation_binary64_witness :
  (0 <=? at1 (mkArray 100 0.25)) = true
  /\ evolve exp_stand_in Phi_half Qinv_one eps_double
            (with_discretization (scenario Euler) Reflection)
            0 (mkArray 100 0.25) 1 (mkArray 1 (-1))
     = evolve exp_stand_in Phi_half Qinv_one eps_double
              (with_discretization (scenario Euler) FullTruncation)
              0 (mkArray 100 0.25) 1 (mkArray 1 (-1)).
Proof.
  split; [reflexivity |].
  exact (proj2 (reflection_full_truncation_binary64
                  exp_stand_in Phi_half Qinv_one eps_double (scenario Euler)
                  0 (mkArray 100 0.25) 1 (mkArray 1 (-1)) eq_refl) eq_refl).
Defined.

End B64Facts.
